(** * quayd: commit statuses and image tags for registry build webhooks

    A shallow embedding of [quayd.go].  Go strings are byte strings
    ([string]), a Go [error] is [option string] ([None] is [nil]), a pointer
    or interface value that may be [nil] is an [option], and a run-time panic
    is an explicit outcome.  Everything outside the process (GitHub, the
    registry, the network) is a state of an abstract type [W]. *)

From Stdlib Require Import ZArith Ascii String.
From stdpp Require Import base option list strings gmap.

Local Open Scope list_scope.
Local Open Scope string_scope.

(** ** Go values *)

(** [error]: [nil] or a value carrying its message. *)
Definition error : Type := option string.

Definition errors_New (msg : string) : error := Some msg.

(** ** [strings.Split] for a one-byte separator

    Both calls in the source split on a one-byte separator.  The result
    always has [1 + (number of separators in s)] elements. *)
Fixpoint strings_Split (s : string) (sep : ascii) : list string :=
  match s with
  | EmptyString => [""]
  | String c s' =>
      if Ascii.eqb c sep then "" :: strings_Split s' sep
      else match strings_Split s' sep with
           | [] => [String c ""]
           | x :: xs => String c x :: xs
           end
  end.

(** [sep] does not occur in [s]. *)
Fixpoint no_sep (sep : ascii) (s : string) : bool :=
  match s with
  | EmptyString => true
  | String c s' => negb (Ascii.eqb c sep) && no_sep sep s'
  end.

(** ** Package-level variables *)

Definition Context : string := "Docker Image".

Definition Statuses : gmap string string :=
  <["pending" := "The Docker image is building"]>
  (<["success" := "The Docker image was built"]>
  (<["failure" := "The Docker image failed to build"]> ∅)).

(** [Statuses[state]]: indexing a Go map yields the zero value of the element
    type for a missing key. *)
Definition Statuses_at (state : string) : string :=
  default "" (Statuses !! state).

(** ** Data *)

(** [Status] represents a GitHub commit status. *)
Record Status := mkStatus {
  Repo : string;
  Ref : string;
  State : string;
  Ctx : string;          (* field [Context] *)
  TargetURL : string;
  Description : string
}.

(** [github.RepoStatus], the fields the source fills in. *)
Record RepoStatus := mkRepoStatus {
  rs_State : string;
  rs_TargetURL : string;
  rs_Context : string;
  rs_Description : string
}.

(** [http.Request] as built by [Tag]. *)
Record Request := mkRequest {
  req_Method : string;
  req_URL : string;
  req_Body : string;
  req_Header : list (string * string);
  req_BasicAuth : option (string * string)
}.

(** [http.Response], the fields the source reads. *)
Record Response := mkResponse {
  StatusCode : Z;
  resp_Status : string;  (* field [Status], e.g. "404 Not Found" *)
  resp_Body : string
}.


(** ** Effects: state passing with run-time panics *)

(** The run-time errors the source can raise. *)
Inductive runtime_error :=
| IndexOutOfRange (i len : nat)
| NilDereference.

Inductive outcome (S A : Type) :=
| Returns (a : A) (s : S)
| Panics (p : runtime_error) (s : S).
Arguments Returns {S A} a s.
Arguments Panics {S A} p s.

(** A procedure over a state of type [S]. *)
Definition proc (S A : Type) : Type := S -> outcome S A.

Definition ret {S A} (a : A) : proc S A := fun s => Returns a s.

Definition bind {S A B} (c : proc S A) (k : A -> proc S B) : proc S B :=
  fun s =>
    match c s with
    | Returns a s' => k a s'
    | Panics p s' => Panics p s'
    end.

Definition panic {S A} (p : runtime_error) : proc S A := fun s => Panics p s.

Notation "'do' x <- c ; k" := (bind c (fun x => k))
  (at level 10, x name, c at level 100, k at level 200).
Notation "'do' ' pat <- c ; k" := (bind c (fun x => match x with pat => k end))
  (at level 10, pat pattern, c at level 100, k at level 200).

(** [l[i]] on a slice. *)
Definition index {S A} (l : list A) (i : nat) : proc S A :=
  match l !! i with
  | Some x => ret x
  | None => panic (IndexOutOfRange i (length l))
  end.

(** Reading a field through a pointer. *)
Definition deref {S A} (p : option A) : proc S A :=
  match p with
  | Some x => ret x
  | None => panic NilDereference
  end.

(** [p == nil] *)
Definition is_nil {A} (p : option A) : bool :=
  match p with Some _ => false | None => true end.

(** [err != nil] *)
Definition is_err (err : error) : bool :=
  match err with Some _ => true | None => false end.

(** ** The process and the outside world *)

(** The mutable state of the process: the record list of the
    package-level fake [DefaultStatusesRepository], and the world. *)
Record Mem (W : Type) := mkMem {
  statuses : list Status;
  world : W
}.
Arguments mkMem {W} _ _.
Arguments statuses {W} _.
Arguments world {W} _.

(** What the imported packages do: [net/http], [encoding/json] and the
    [go-github] client.  Calls that reach the network act on the world. *)
Class Externals (W : Type) := {
  http_NewRequest : string -> string -> string -> option Request * error;
  http_Do : Request -> W -> (option Response * error) * W;
  http_Get : string -> W -> (option Response * error) * W;
  (* [json.NewDecoder(body).Decode(&s)] for a [string] target *)
  json_Decode_string : string -> string * error;
  (* [CreateStatus] of the repositories service of a client holding a token *)
  github_CreateStatus :
    string -> string -> string -> string -> RepoStatus ->
    W -> (option RepoStatus * option Response * error) * W
}.

(** A call into the world, run inside the process. *)
Definition extern {W A} (f : W -> A * W) : proc (Mem W) A :=
  fun m => let '(a, w) := f (world m) in Returns a (mkMem (statuses m) w).

(** ** The three capabilities and their implementations *)

Section Capabilities.
Context {W : Type} {ext : Externals W}.

(** Interfaces: a value is its method table. *)
Record StatusesRepository := { Create : Status -> proc (Mem W) error }.
Record Tagger := { Tag : string -> string -> string -> proc (Mem W) error }.
Record TagResolver := { Resolve : string -> string -> proc (Mem W) (string * error) }.

(** [statusesRepository], the fake: [Create] appends to the record list. *)
Definition statusesRepository_Create (status : Status) : proc (Mem W) error :=
  fun m => Returns None (mkMem (statuses m ++ [status]) (world m)).

Definition statusesRepository_Reset : proc (Mem W) unit :=
  fun m => Returns tt (mkMem [] (world m)).

(** [GitHubStatusesRepository]: the field [RepositoriesService], an
    interface with the one method [CreateStatus].  [New] always sets it; a
    nil service is left out of the model. *)
Record GitHubStatusesRepository := {
  CreateStatus :
    string -> string -> string -> RepoStatus ->
    W -> (option RepoStatus * option Response * error) * W
}.

Definition GitHubStatusesRepository_Create
    (r : GitHubStatusesRepository) (status : Status) : proc (Mem W) error :=
  let st := {| rs_State := State status;
               rs_TargetURL := TargetURL status;
               rs_Context := Ctx status;
               rs_Description := Description status |} in
  let c := strings_Split (Repo status) "/" in
  do c0 <- index c 0;
  do c1 <- index c 1;
  do '(_, _, err) <- extern (CreateStatus r c0 c1 (Ref status) st);
  ret err.

(** [tagger], the fake. *)
Definition tagger_Tag (repo imageID tag : string) : proc (Mem W) error :=
  ret None.

(** [DockerRegistryTagger] *)
Record DockerRegistryTagger := {
  dt_registry : string;
  dt_username : string;
  dt_password : string
}.

Definition dquote : string := String "034"%char EmptyString.

Definition Header_Add (k v : string) (req : Request) : Request :=
  mkRequest (req_Method req) (req_URL req) (req_Body req)
            (req_Header req ++ [(k, v)]) (req_BasicAuth req).

Definition SetBasicAuth (username password : string) (req : Request) : Request :=
  mkRequest (req_Method req) (req_URL req) (req_Body req)
            (req_Header req) (Some (username, password)).

Definition DockerRegistryTagger_Tag
    (dt : DockerRegistryTagger) (repo imageID tag : string) : proc (Mem W) error :=
  let '(req, err) :=
    http_NewRequest "PUT"
      ("https://" ++ dt_registry dt ++ "/v1/repositories/" ++ repo ++ "/tags/" ++ tag)
      (dquote ++ imageID ++ dquote) in
  if is_err err then ret err
  else
    do req <- deref req;
    let req := Header_Add "Content-Type" "application/json" req in
    let req := SetBasicAuth (dt_username dt) (dt_password dt) req in
    do '(resp, err') <- extern (http_Do req);
    (* [err != nil || resp.StatusCode >= 300], left to right *)
    do failed <- (if is_err err' then ret true
                  else do r <- deref resp; ret (300 <=? StatusCode r)%Z);
    if failed : bool then
      do r <- deref resp;
      ret (errors_New ("Unsuccessful Request: " ++ resp_Status r))
    else ret err.

(** [tagResolver], the fake. *)
Definition tagResolver_Resolve (repo tag : string) : proc (Mem W) (string * error) :=
  ret (EmptyString, None).

(** [DockerRegistryTagResolver] *)
Record DockerRegistryTagResolver := { tr_registry : string }.

Definition DockerRegistryTagResolver_Resolve
    (r : DockerRegistryTagResolver) (repo tag : string) : proc (Mem W) (string * error) :=
  do '(resp, err) <-
    extern (http_Get ("https://" ++ tr_registry r ++ "/v1/repositories/" ++ repo ++ "/tags/" ++ tag));
  if is_err err then ret (EmptyString, err)
  else
    do resp <- deref resp;
    let '(imageID, err) := json_Decode_string (resp_Body resp) in
    if is_err err then ret (EmptyString, err)
    else ret (imageID, None).

(** Each struct seen through the interface it implements. *)
Class Implements (T I : Type) := as_iface : T -> I.

#[export] Instance GitHub_is_StatusesRepository :
  Implements GitHubStatusesRepository StatusesRepository :=
  fun r => {| Create := GitHubStatusesRepository_Create r |}.
#[export] Instance Registry_is_Tagger :
  Implements DockerRegistryTagger Tagger :=
  fun dt => {| Tag := DockerRegistryTagger_Tag dt |}.
#[export] Instance Registry_is_TagResolver :
  Implements DockerRegistryTagResolver TagResolver :=
  fun r => {| Resolve := DockerRegistryTagResolver_Resolve r |}.

(** The package-level defaults, all fakes. *)
Definition DefaultStatusesRepository : StatusesRepository :=
  {| Create := statusesRepository_Create |}.
Definition DefaultTagger : Tagger := {| Tag := tagger_Tag |}.
Definition DefaultTagResolver : TagResolver := {| Resolve := tagResolver_Resolve |}.

End Capabilities.

Arguments StatusesRepository : clear implicits.
Arguments Tagger : clear implicits.
Arguments TagResolver : clear implicits.
Arguments GitHubStatusesRepository : clear implicits.

(** ** The orchestrator *)

(** A method call through one of the three interfaces. *)
Inductive Call :=
| CreateCall (status : Status)
| ResolveCall (repo tag : string)
| TagCall (repo imageID tag : string).

Section Orchestrator.
Context {W : Type} {ext : Externals W}.

(** Orchestrator code runs over the process state together with the list of
    interface calls made so far, oldest first.  Implementations only see the
    process state. *)
Definition traced : Type := list Call * Mem W.

Definition invoke {A} (c : Call) (p : proc (Mem W) A) : proc traced A :=
  fun '(calls, m) =>
    match p m with
    | Returns a m' => Returns a ((calls ++ [c])%list, m')
    | Panics e m' => Panics e ((calls ++ [c])%list, m')
    end.

(** A method call on an interface value; on [nil] it panics. *)
Definition call_Create (r : option (StatusesRepository W)) (status : Status)
  : proc traced error :=
  match r with
  | Some r => invoke (CreateCall status) (Create r status)
  | None => panic NilDereference
  end.

Definition call_Resolve (r : option (TagResolver W)) (repo tag : string)
  : proc traced (string * error) :=
  match r with
  | Some r => invoke (ResolveCall repo tag) (Resolve r repo tag)
  | None => panic NilDereference
  end.

Definition call_Tag (t : option (Tagger W)) (repo imageID tag : string)
  : proc traced error :=
  match t with
  | Some t => invoke (TagCall repo imageID tag) (Tag t repo imageID tag)
  | None => panic NilDereference
  end.

(** [Quayd]: three embedded interface values, each possibly [nil]. *)
Record Quayd := mkQuayd {
  Quayd_StatusesRepository : option (StatusesRepository W);
  Quayd_Tagger : option (Tagger W);
  Quayd_TagResolver : option (TagResolver W)
}.

Definition Default : Quayd := mkQuayd None None None.

(** [New] returns a [Quayd] backed by the GitHub and registry
    implementations.  Of the literal's parts only the two index expressions
    can panic; the clients built from [token] are the world's. *)
Definition New {S} (token registryAuth : string) : proc S Quayd :=
  let gh_Repositories := {| CreateStatus := github_CreateStatus token |} in
  let auth := strings_Split registryAuth ":" in
  do auth0 <- index auth 0;
  do auth1 <- index auth 1;
  ret (mkQuayd
         (Some (as_iface gh_Repositories))
         (Some (as_iface {| dt_registry := "quay.io";
                            dt_username := auth0;
                            dt_password := auth1 |}))
         (Some (as_iface {| tr_registry := "quay.io" |}))).

Definition q_statusesRepository (q : Quayd) : option (StatusesRepository W) :=
  if is_nil (Quayd_StatusesRepository q)
  then Some DefaultStatusesRepository
  else Quayd_StatusesRepository q.

(** [tagger] and [tagResolver] store the default in the receiver. *)
Definition q_tagger (q : Quayd) : option (Tagger W) * Quayd :=
  let q := if is_nil (Quayd_Tagger q)
           then mkQuayd (Quayd_StatusesRepository q) (Some DefaultTagger) (Quayd_TagResolver q)
           else q in
  (Quayd_Tagger q, q).

Definition q_tagResolver (q : Quayd) : option (TagResolver W) * Quayd :=
  let q := if is_nil (Quayd_TagResolver q)
           then mkQuayd (Quayd_StatusesRepository q) (Quayd_Tagger q) (Some DefaultTagResolver)
           else q in
  (Quayd_TagResolver q, q).

(** [Handle] creates a commit status for the commit. *)
Definition Handle (q : Quayd) (repo commit url state : string) : proc traced error :=
  call_Create (q_statusesRepository q)
    {| Repo := repo;
       TargetURL := url;
       Ref := commit;
       State := state;
       Description := Statuses_at state;
       Ctx := Context |}.

(** [LoadImageTags] resolves [tag] to an image id and tags that image with
    the commit and with the image id.  The receiver is returned next to the
    error since the accessors may have filled in its fields. *)
Definition LoadImageTags (q : Quayd) (tag repo commit : string)
  : proc traced (error * Quayd) :=
  let '(r, q) := q_tagResolver q in
  do '(imageID, err) <- call_Resolve r repo tag;
  if is_err err then ret (err, q)
  else
    let '(t, q) := q_tagger q in
    do err <- call_Tag t repo imageID commit;
    if is_err err then ret (err, q)
    else
      let '(t, q) := q_tagger q in
      do err <- call_Tag t repo imageID imageID;
      ret (err, q).

(** ** The event pipeline *)

(** A normalized build event. *)
Record BuildEvent := mkBuildEvent {
  ev_repository : string;
  ev_ref : string;
  ev_state : string;
  ev_buildURL : string
}.

(** How the pipeline ends: the event was rejected as carrying an unknown
    status, or the adapters ran and gave this error (or none). *)
Inductive verdict :=
| UnknownStatus
| Finished (err : error).

Definition recognized (st : string) : bool :=
  String.eqb st "pending" || String.eqb st "success" || String.eqb st "failure".

(** Modelled from the spec: the webhook handler that takes a build event to
    [Handle] and [LoadImageTags] is not among the sources.  The spec has: an
    event whose state is not one of the three recognized values is rejected
    before any side effect; on [pending] or [failure] the sink is called once
    and its error returned, with no tagging; on [success] the sink is called
    first, then the tags are stabilized through the event's registry tag, and
    the first failure aborts the remainder. *)
Definition HandleEvent (q : Quayd) (ev : BuildEvent) (registryTag : string)
  : proc traced (verdict * Quayd) :=
  if recognized (ev_state ev) then
    do err <- Handle q (ev_repository ev) (ev_ref ev) (ev_buildURL ev) (ev_state ev);
    if is_err err then ret (Finished err, q)
    else if String.eqb (ev_state ev) "success" then
      do '(err, q) <- LoadImageTags q registryTag (ev_repository ev) (ev_ref ev);
      ret (Finished err, q)
    else ret (Finished None, q)
  else ret (UnknownStatus, q).

End Orchestrator.

Arguments Quayd W : clear implicits.
Arguments traced W : clear implicits.

(** ** Segments of a separated string, in the words of the claims *)

(** The text before the first [sep] (all of [s] when there is none). *)
Fixpoint upto (sep : ascii) (s : string) : string :=
  match s with
  | EmptyString => EmptyString
  | String c s' => if Ascii.eqb c sep then EmptyString else String c (upto sep s')
  end.

(** The text after the first [sep] (empty when there is none). *)
Fixpoint past (sep : ascii) (s : string) : string :=
  match s with
  | EmptyString => EmptyString
  | String c s' => if Ascii.eqb c sep then s' else past sep s'
  end.

(** A repository string that splits into exactly two non-empty segments. *)
Definition well_formed_repo (repo : string) : bool :=
  match strings_Split repo "/" with
  | [owner; name] => negb (String.eqb owner EmptyString) && negb (String.eqb name EmptyString)
  | _ => false
  end.

(** ** Vocabulary of the statements *)

(** The status sent to GitHub for a [Status]. *)
Definition RepoStatus_of (status : Status) : RepoStatus :=
  {| rs_State := State status;
     rs_TargetURL := TargetURL status;
     rs_Context := Ctx status;
     rs_Description := Description status |}.

(** One call of the remote API with the given owner and name, its error
    handed back as it is. *)
Definition one_CreateStatus {W} (r : GitHubStatusesRepository W)
    (owner name : string) (status : Status) : proc (Mem W) error :=
  fun m =>
    let '((_, _, err), w) :=
      CreateStatus r owner name (Ref status) (RepoStatus_of status) (world m) in
    Returns err (mkMem (statuses m) w).

(** The request [Tag] sends once [http.NewRequest] has given [req]. *)
Definition Tag_request (dt : DockerRegistryTagger) (req : Request) : Request :=
  SetBasicAuth (dt_username dt) (dt_password dt)
    (Header_Add "Content-Type" "application/json" req).

(** The address [Tag] writes to. *)
Definition Tag_url (dt : DockerRegistryTagger) (repo tag : string) : string :=
  "https://" ++ dt_registry dt ++ "/v1/repositories/" ++ repo ++ "/tags/" ++ tag.

(** The address [Resolve] reads. *)
Definition Resolve_url (r : DockerRegistryTagResolver) (repo tag : string) : string :=
  "https://" ++ tr_registry r ++ "/v1/repositories/" ++ repo ++ "/tags/" ++ tag.

(** The state an outcome ends in, and the interface calls made up to there. *)
Definition final {S A} (o : outcome S A) : S :=
  match o with Returns _ s => s | Panics _ s => s end.

Definition calls_of {W A} (o : outcome (traced W) A) : list Call := fst (final o).

(** A procedure that returns from every state. *)
Definition total {S A} (p : proc S A) : Prop :=
  forall s, exists a s', p s = Returns a s'.

Section Resolved.
Context {W : Type}.
Implicit Types (q : Quayd W).

(** The implementation each accessor hands out: the configured one, or the
    default when the field is nil. *)
Definition the_statusesRepository q : StatusesRepository W :=
  default DefaultStatusesRepository (Quayd_StatusesRepository q).
Definition the_tagger q : Tagger W := default DefaultTagger (Quayd_Tagger q).
Definition the_tagResolver q : TagResolver W :=
  default DefaultTagResolver (Quayd_TagResolver q).

(** The receiver after [tagResolver], and after [tagger]. *)
Definition fill_tagResolver q : Quayd W :=
  mkQuayd (Quayd_StatusesRepository q) (Quayd_Tagger q) (Some (the_tagResolver q)).
Definition fill_tagger q : Quayd W :=
  mkQuayd (Quayd_StatusesRepository q) (Some (the_tagger q)) (Quayd_TagResolver q).

(** The status [Handle] builds. *)
Definition Handle_status (repo commit url state : string) : Status :=
  {| Repo := repo; Ref := commit; State := state; Ctx := Context;
     TargetURL := url; Description := Statuses_at state |}.

(** Every configured implementation returns from every state. *)
Definition configured_total q : Prop :=
  (forall r, Quayd_StatusesRepository q = Some r -> forall status, total (Create r status))
  /\ (forall t, Quayd_Tagger q = Some t -> forall repo imageID tag, total (Tag t repo imageID tag))
  /\ (forall r, Quayd_TagResolver q = Some r -> forall repo tag, total (Resolve r repo tag)).

End Resolved.

(** ** A small world for concrete runs

    The world is the list of remote calls received so far.  The registry
    answers every write with [put] and every read with [get]; GitHub answers
    every status with the error [gh]. *)

Module Demo.

Inductive RemoteCall :=
| GitHubStatus (token owner name ref : string) (st : RepoStatus)
| RegistryGet (url : string)
| RegistryPut (req : Request).

Definition World : Type := list RemoteCall.

(** Reads a quoted string without escapes, the only bodies the runs below use. *)
Fixpoint unquote_tail (s : string) : option string :=
  match s with
  | EmptyString => None
  | String c EmptyString => if Ascii.eqb c "034" then Some EmptyString else None
  | String c s' => String c <$> unquote_tail s'
  end.

Definition unquote (body : string) : string * error :=
  match body with
  | String c rest =>
      if Ascii.eqb c "034" then
        match unquote_tail rest with
        | Some x => (x, None)
        | None => (EmptyString, Some "unexpected end of JSON input")
        end
      else (EmptyString, Some "json: cannot unmarshal into Go value of type string")
  | EmptyString => (EmptyString, Some "EOF")
  end.

Definition externals (put get : option Response * error) (gh : error) : Externals World :=
  {| http_NewRequest := fun method url body => (Some (mkRequest method url body [] None), None);
     http_Do := fun req w => (put, (w ++ [RegistryPut req])%list);
     http_Get := fun url w => (get, (w ++ [RegistryGet url])%list);
     json_Decode_string := unquote;
     github_CreateStatus := fun token owner name ref st w =>
       ((None, None, gh), (w ++ [GitHubStatus token owner name ref st])%list) |}.

Definition ok (code : Z) (status body : string) : option Response * error :=
  (Some (mkResponse code status body), None).

(** The registry and GitHub all answer with success; tag [T] resolves to 1234. *)
Definition happy : Externals World :=
  externals (ok 200 "200 OK" EmptyString)
            (ok 200 "200 OK" (dquote ++ "1234" ++ dquote))
            None.

(** The registry cannot be reached for writes: no response, an error. *)
Definition put_refused : Externals World :=
  externals (None, Some "dial tcp: connection refused")
            (ok 200 "200 OK" (dquote ++ "1234" ++ dquote))
            None.

(** The registry answers every write with status 500. *)
Definition put_500 : Externals World :=
  externals (ok 500 "500 Internal Server Error" EmptyString)
            (ok 200 "200 OK" (dquote ++ "1234" ++ dquote))
            None.

(** The registry cannot be reached for reads. *)
Definition get_refused : Externals World :=
  externals (ok 200 "200 OK" EmptyString)
            (None, Some "dial tcp: connection refused")
            None.

(** The registry answers every read with status 500 and a JSON string. *)
Definition get_500 : Externals World :=
  externals (ok 200 "200 OK" EmptyString)
            (ok 500 "500 Internal Server Error" (dquote ++ "Internal Server Error" ++ dquote))
            None.

Definition mem0 : Mem World := mkMem [] [].

Definition registry_tagger : DockerRegistryTagger :=
  {| dt_registry := "quay.io"; dt_username := "user"; dt_password := "pass" |}.

Definition registry_resolver : DockerRegistryTagResolver :=
  {| tr_registry := "quay.io" |}.

(** The [Quayd] that [New "token" "user:pass"] builds, in a given world. *)
Definition production (ext : Externals World) : Quayd World :=
  mkQuayd (Some (as_iface {| CreateStatus := github_CreateStatus "token" |}))
          (Some (as_iface registry_tagger))
          (Some (as_iface registry_resolver)).

(** Only the sink is configured, with the GitHub implementation. *)
Definition sink_only (ext : Externals World) : Quayd World :=
  mkQuayd (Some (as_iface {| CreateStatus := github_CreateStatus "token" |})) None None.

(** Only the tagger is configured. *)
Definition tagger_only (ext : Externals World) : Quayd World :=
  mkQuayd None (Some (as_iface registry_tagger)) None.

(** The build event of the test fixture, with a given state. *)
Definition event (state : string) : BuildEvent :=
  {| ev_repository := "ejholmes/docker-statsd";
     ev_ref := "long-f1fb3b0";
     ev_state := state;
     ev_buildURL := "https://quay.io/repository/ejholmes/docker-statsd/build/1" |}.

Definition status_of (ev : BuildEvent) (description : string) : Status :=
  {| Repo := ev_repository ev; Ref := ev_ref ev; State := ev_state ev;
     Ctx := "Docker Image"; TargetURL := ev_buildURL ev; Description := description |}.

End Demo.

(** ** Values of the concrete runs *)

Definition demo_github : GitHubStatusesRepository Demo.World :=
  {| CreateStatus := github_CreateStatus (Externals := Demo.happy) "token" |}.

Definition demo_status (repo : string) : Status :=
  {| Repo := repo; Ref := "long-f1fb3b0"; State := "success"; Ctx := Context;
     TargetURL := "https://quay.io/build/1";
     Description := "The Docker image was built" |}.

(** The remote calls of a full run on the fixture's event. *)
Definition github_call (ev : BuildEvent) (description : string) : Demo.RemoteCall :=
  Demo.GitHubStatus "token" "ejholmes" "docker-statsd" (ev_ref ev)
    (RepoStatus_of (Demo.status_of ev description)).

Definition resolve_call : Demo.RemoteCall :=
  Demo.RegistryGet "https://quay.io/v1/repositories/ejholmes/docker-statsd/tags/latest".

Definition tag_call (imageID tag : string) : Demo.RemoteCall :=
  Demo.RegistryPut
    {| req_Method := "PUT";
       req_URL := "https://quay.io/v1/repositories/ejholmes/docker-statsd/tags/" ++ tag;
       req_Body := dquote ++ imageID ++ dquote;
       req_Header := [("Content-Type", "application/json")];
       req_BasicAuth := Some ("user", "pass") |}.

Definition success_status : Status :=
  Demo.status_of (Demo.event "success") "The Docker image was built".


(** ** Vocabulary of the further properties *)

(** [strings.Join] for a one-byte separator. *)
Fixpoint strings_Join (l : list string) (sep : ascii) : string :=
  match l with
  | [] => EmptyString
  | x :: xs =>
      match xs with
      | [] => x
      | _ :: _ => x ++ String sep (strings_Join xs sep)
      end
  end.

(** The number of separators in [s]. *)
Fixpoint count_sep (sep : ascii) (s : string) : nat :=
  match s with
  | EmptyString => 0
  | String c s' => (if Ascii.eqb c sep then 1 else 0) + count_sep sep s'
  end.

(** One [Create] per status, in the order of the list; the errors returned. *)
Fixpoint Create_all {W} (r : StatusesRepository W) (l : list Status)
  : proc (Mem W) (list error) :=
  match l with
  | [] => ret []
  | status :: l' =>
      do err <- Create r status;
      do errs <- Create_all r l';
      ret (err :: errs)
  end.

(** The calls [LoadImageTags] makes after the resolver has given [imageID]
    without error, by the outcome [o] of the first tag write. *)
Definition tag_calls {S} (repo imageID commit : string) (o : outcome S error)
  : list Call :=
  TagCall repo imageID commit ::
  match o with
  | Returns None _ => [TagCall repo imageID imageID]
  | _ => []
  end.

(** * Properties *)

(** ** [strings.Split] *)

Lemma Split_unfold (s : string) (sep : ascii) :
  strings_Split s sep =
  upto sep s :: (if no_sep sep s then [] else strings_Split (past sep s) sep).
Proof.
  induction s as [|c s IH]; simpl; [reflexivity|].
  destruct (Ascii.eqb c sep); simpl; [reflexivity|].
  rewrite IH. reflexivity.
Qed.

Lemma Split_no_sep (s : string) (sep : ascii) :
  no_sep sep s = true -> strings_Split s sep = [s].
Proof.
  induction s as [|c s IH]; simpl; [reflexivity|].
  destruct (Ascii.eqb c sep); simpl; [discriminate|].
  intros Hs. rewrite (IH Hs). reflexivity.
Qed.

Lemma Split_first (s : string) (sep : ascii) :
  strings_Split s sep !! 0 = Some (upto sep s).
Proof. rewrite Split_unfold. reflexivity. Qed.

Lemma Split_second (s : string) (sep : ascii) :
  no_sep sep s = false ->
  strings_Split s sep !! 1 = Some (upto sep (past sep s)).
Proof.
  intros Hs. rewrite Split_unfold, Hs. simpl. apply Split_first.
Qed.

Lemma Split_length (s : string) (sep : ascii) :
  length (strings_Split s sep) = 1 <-> no_sep sep s = true.
Proof.
  split; intros Hs.
  - rewrite Split_unfold in Hs. destruct (no_sep sep s); [reflexivity|].
    simpl in Hs. rewrite Split_unfold in Hs. discriminate.
  - rewrite Split_no_sep by assumption. reflexivity.
Qed.

(** A string that holds a separator is the text before the first one, that
    separator, and the text after it. *)
Lemma upto_past (s : string) (sep : ascii) :
  no_sep sep s = false -> s = upto sep s ++ String sep (past sep s).
Proof.
  induction s as [|c s IH]; simpl; [discriminate|].
  destruct (Ascii.eqb_spec c sep) as [->|Hne]; simpl; [reflexivity|].
  intros Hs.
  change (String c s = String c (upto sep s ++ String sep (past sep s))).
  f_equal. exact (IH Hs).
Qed.

Lemma upto_no_sep (s : string) (sep : ascii) : no_sep sep (upto sep s) = true.
Proof.
  induction s as [|c s IH]; simpl; [reflexivity|].
  destruct (Ascii.eqb c sep) eqn:E; simpl; [reflexivity|].
  rewrite E. exact IH.
Qed.

Example Split_owner_repo :
  strings_Split "ejholmes/docker-statsd" "/" = ["ejholmes"; "docker-statsd"].
Proof. reflexivity. Qed.

Example Split_three : strings_Split "a/b/c" "/" = ["a"; "b"; "c"].
Proof. reflexivity. Qed.

Example Split_empty : strings_Split EmptyString ":" = [EmptyString].
Proof. reflexivity. Qed.

Example unquote_1234 : Demo.unquote (dquote ++ "1234" ++ dquote) = ("1234", None).
Proof. reflexivity. Qed.

(** ** The static description table *)

Lemma Statuses_at_cases (st : string) :
  Statuses_at st =
  if String.eqb st "pending" then "The Docker image is building"
  else if String.eqb st "success" then "The Docker image was built"
  else if String.eqb st "failure" then "The Docker image failed to build"
  else EmptyString.
Proof.
  unfold Statuses_at, Statuses.
  destruct (String.eqb_spec st "pending") as [->|H1]; [reflexivity|].
  destruct (String.eqb_spec st "success") as [->|H2]; [reflexivity|].
  destruct (String.eqb_spec st "failure") as [->|H3]; [reflexivity|].
  rewrite !lookup_insert_ne by congruence.
  rewrite lookup_empty. reflexivity.
Qed.

(** ** [New] *)

(** C9: [New] needs a ':' in [registryAuth].  Without one it panics with an
    index out of range on the split result (and returns nothing); with one,
    the registry user name is the text before the first colon and the
    password is the text between the first colon and the second (or the end
    of the string). *)
Theorem New_registryAuth {W} {ext : Externals W} {S} (token registryAuth : string) (s : S) :
  New token registryAuth s =
  if no_sep ":" registryAuth then Panics (IndexOutOfRange 1 1) s
  else Returns
         (mkQuayd
            (Some (as_iface {| CreateStatus := github_CreateStatus token |}))
            (Some (as_iface {| dt_registry := "quay.io";
                               dt_username := upto ":" registryAuth;
                               dt_password := upto ":" (past ":" registryAuth) |}))
            (Some (as_iface {| tr_registry := "quay.io" |})))
         s.
Proof.
  unfold New, bind, index.
  rewrite Split_first. unfold ret at 1.
  destruct (no_sep ":" registryAuth) eqn:Hs.
  - rewrite Split_no_sep by assumption. reflexivity.
  - rewrite Split_second by assumption. reflexivity.
Qed.

#[local] Existing Instance Demo.happy.

Example New_user_pass :
  New "token" "user:pass" tt =
  Returns (mkQuayd
             (Some (as_iface {| CreateStatus := github_CreateStatus "token" |}))
             (Some (as_iface {| dt_registry := "quay.io";
                                dt_username := "user"; dt_password := "pass" |}))
             (Some (as_iface {| tr_registry := "quay.io" |}))) tt.
Proof. reflexivity. Qed.

Example New_no_colon :
  New "token" "userpass" tt = Panics (IndexOutOfRange 1 1) tt.
Proof. reflexivity. Qed.

(** ** The GitHub-backed sink *)

Lemma upto_app (a t : string) (sep : ascii) :
  no_sep sep a = true -> upto sep (a ++ String sep t) = a.
Proof.
  induction a as [|c a IH]; simpl.
  - intros _. change (upto sep (String sep t) = EmptyString).
    simpl. rewrite Ascii.eqb_refl. reflexivity.
  - destruct (Ascii.eqb c sep) eqn:E; simpl; [discriminate|].
    intros Ha. rewrite (IH Ha). reflexivity.
Qed.

Lemma past_app (a t : string) (sep : ascii) :
  no_sep sep a = true -> past sep (a ++ String sep t) = t.
Proof.
  induction a as [|c a IH]; simpl.
  - intros _. change (past sep (String sep t) = t).
    simpl. rewrite Ascii.eqb_refl. reflexivity.
  - destruct (Ascii.eqb c sep) eqn:E; simpl; [discriminate|].
    intros Ha. exact (IH Ha).
Qed.

Lemma upto_id (a : string) (sep : ascii) :
  no_sep sep a = true -> upto sep a = a.
Proof.
  induction a as [|c a IH]; simpl; [reflexivity|].
  destruct (Ascii.eqb c sep); simpl; [discriminate|].
  intros Ha. rewrite (IH Ha). reflexivity.
Qed.

Lemma GitHub_Create_run {W} (r : GitHubStatusesRepository W) (status : Status) (m : Mem W) :
  GitHubStatusesRepository_Create r status m =
  if no_sep "/" (Repo status) then Panics (IndexOutOfRange 1 1) m
  else one_CreateStatus r (upto "/" (Repo status)) (upto "/" (past "/" (Repo status)))
                        status m.
Proof.
  unfold GitHubStatusesRepository_Create, bind, index.
  rewrite Split_first. unfold ret at 1.
  destruct (no_sep "/" (Repo status)) eqn:Hs.
  - rewrite Split_no_sep by assumption. reflexivity.
  - rewrite Split_second by assumption. unfold ret at 1.
    unfold one_CreateStatus, extern, RepoStatus_of.
    destruct (CreateStatus r _ _ _ _ _) as [[[? ?] err] w]. reflexivity.
Qed.

(** C5, as amended: [Create] does not validate the repository string.  When
    it holds a '/', the remote API is called once, with the text before the
    first '/' as owner and the text between the first and the second '/' (or
    the end) as name, whether or not these are the only segments and whether
    or not they are empty; what [Create] returns is that call's error. *)
Theorem GitHub_Create_segments {W} (r : GitHubStatusesRepository W)
    (status : Status) (m : Mem W) :
  no_sep "/" (Repo status) = false ->
  GitHubStatusesRepository_Create r status m =
  one_CreateStatus r (upto "/" (Repo status)) (upto "/" (past "/" (Repo status)))
                   status m.
Proof.
  intros Hs. unfold GitHubStatusesRepository_Create, bind, index.
  rewrite Split_first. unfold ret at 1.
  rewrite Split_second by assumption. unfold ret at 1.
  unfold one_CreateStatus, extern, RepoStatus_of.
  destruct (CreateStatus r _ _ _ _ _) as [[[? ?] err] w]. reflexivity.
Qed.

(** X3: for a well-formed [owner/name], [Create] is one call of the remote
    API for exactly [owner] and [name], with the four fields of the status
    copied and the ref as given; its error is handed back as it is. *)
Lemma GitHub_Create_owner_name {W} (r : GitHubStatusesRepository W)
    (status : Status) (owner name : string) (m : Mem W) :
  no_sep "/" owner = true -> no_sep "/" name = true ->
  Repo status = owner ++ String "/" name ->
  GitHubStatusesRepository_Create r status m = one_CreateStatus r owner name status m.
Proof.
  intros Ho Hn Hr. rewrite GitHub_Create_run, Hr.
  rewrite upto_app, past_app, (upto_id name) by assumption.
  replace (no_sep "/" (owner ++ String "/" name)) with false; [reflexivity|].
  clear Hr. induction owner as [|c o IH]; simpl in *.
  - reflexivity.
  - destruct (Ascii.eqb c "/") eqn:E; simpl in *; [discriminate|].
    exact (IH Ho).
Qed.

(** X4: a repository string without '/' makes [Create] panic with index 1 out
    of range for length 1, before the remote call: the state is untouched. *)
Lemma GitHub_Create_no_slash {W} (r : GitHubStatusesRepository W)
    (status : Status) (m : Mem W) :
  no_sep "/" (Repo status) = true ->
  GitHubStatusesRepository_Create r status m = Panics (IndexOutOfRange 1 1) m.
Proof. intros Hs. rewrite GitHub_Create_run, Hs. reflexivity. Qed.

Lemma GitHub_Create_segments_witness :
  no_sep "/" (Repo (demo_status "ejholmes/docker-statsd")) = false /\
  GitHubStatusesRepository_Create demo_github (demo_status "ejholmes/docker-statsd") Demo.mem0 =
  Returns None
    (mkMem [] [Demo.GitHubStatus "token" "ejholmes" "docker-statsd" "long-f1fb3b0"
                 (RepoStatus_of (demo_status "ejholmes/docker-statsd"))]).
Proof.
  split; [reflexivity|].
  rewrite (GitHub_Create_segments demo_github (demo_status "ejholmes/docker-statsd") Demo.mem0);
    reflexivity.
Defined.

(** Against C5 as stated: repository strings that do not split into exactly
    two non-empty segments are not answered with an error.  Three segments
    are sent on as owner [a] and name [b] and two empty segments as they are,
    both with the result [nil]; a string without '/' ends in a panic. *)
Lemma GitHub_Create_malformed_no_error :
  well_formed_repo "a/b/c" = false /\
  GitHubStatusesRepository_Create demo_github (demo_status "a/b/c") Demo.mem0 =
    Returns None
      (mkMem [] [Demo.GitHubStatus "token" "a" "b" "long-f1fb3b0"
                   (RepoStatus_of (demo_status "a/b/c"))]) /\
  well_formed_repo "/" = false /\
  GitHubStatusesRepository_Create demo_github (demo_status "/") Demo.mem0 =
    Returns None
      (mkMem [] [Demo.GitHubStatus "token" EmptyString EmptyString "long-f1fb3b0"
                   (RepoStatus_of (demo_status "/"))]) /\
  well_formed_repo "ejholmes" = false /\
  GitHubStatusesRepository_Create demo_github (demo_status "ejholmes") Demo.mem0 =
    Panics (IndexOutOfRange 1 1) Demo.mem0.
Proof. repeat split; reflexivity. Qed.

(** ** The registry-backed tagger *)

Section RegistryTagger.
Context {W : Type} {ext : Externals W}.

(** What [Tag] does for each answer of the transport. *)
Lemma Tag_run (dt : DockerRegistryTagger) (repo imageID tag : string)
    (req : Request) (m : Mem W) :
  http_NewRequest "PUT" (Tag_url dt repo tag) (dquote ++ imageID ++ dquote) = (Some req, None) ->
  DockerRegistryTagger_Tag dt repo imageID tag m =
  let '((resp, err), w) := http_Do (Tag_request dt req) (world m) in
  let m' := mkMem (statuses m) w in
  match resp, err with
  | Some r, None =>
      if (300 <=? StatusCode r)%Z
      then Returns (Some ("Unsuccessful Request: " ++ resp_Status r)) m'
      else Returns None m'
  | Some r, Some _ => Returns (Some ("Unsuccessful Request: " ++ resp_Status r)) m'
  | None, _ => Panics NilDereference m'
  end.
Proof.
  intros Hreq. unfold DockerRegistryTagger_Tag, Tag_url in *. rewrite Hreq. simpl.
  unfold bind, deref, ret, extern, Tag_request.
  destruct (http_Do _ (world m)) as [[resp err] w].
  destruct resp as [r|], err as [e|]; simpl; try reflexivity.
  destruct (300 <=? StatusCode r)%Z; reflexivity.
Qed.

(** C6, where the code departs from it: a transport error that comes with no
    response makes [Tag] read [resp.Status] through a nil pointer, so the
    call panics and no error value reaches the caller. *)
Theorem Tag_transport_error_panics (dt : DockerRegistryTagger)
    (repo imageID tag e : string) (req : Request) (m : Mem W) (w : W) :
  http_NewRequest "PUT" (Tag_url dt repo tag) (dquote ++ imageID ++ dquote) = (Some req, None) ->
  http_Do (Tag_request dt req) (world m) = ((None, Some e), w) ->
  DockerRegistryTagger_Tag dt repo imageID tag m =
  Panics NilDereference (mkMem (statuses m) w).
Proof.
  intros Hreq Hdo. rewrite (Tag_run _ _ _ _ req) by assumption.
  rewrite Hdo. reflexivity.
Qed.

(** X5: a response with status 300 or more gives an error that carries the
    status text, with or without a transport error beside it. *)
Lemma Tag_status_text (dt : DockerRegistryTagger) (repo imageID tag : string)
    (req : Request) (r : Response) (err : error) (m : Mem W) (w : W) :
  http_NewRequest "PUT" (Tag_url dt repo tag) (dquote ++ imageID ++ dquote) = (Some req, None) ->
  http_Do (Tag_request dt req) (world m) = ((Some r, err), w) ->
  (300 <= StatusCode r)%Z ->
  DockerRegistryTagger_Tag dt repo imageID tag m =
  Returns (Some ("Unsuccessful Request: " ++ resp_Status r)) (mkMem (statuses m) w).
Proof.
  intros Hreq Hdo Hcode. rewrite (Tag_run _ _ _ _ req) by assumption.
  rewrite Hdo. destruct err; [reflexivity|].
  destruct (Z.leb_spec 300 (StatusCode r)); [reflexivity|lia].
Qed.

(** [nil] comes back only after a transport without error and a status below
    300. *)
Lemma Tag_nil_only_below_300 (dt : DockerRegistryTagger) (repo imageID tag : string)
    (m m' : Mem W) :
  DockerRegistryTagger_Tag dt repo imageID tag m = Returns None m' ->
  exists req r w,
    http_NewRequest "PUT" (Tag_url dt repo tag) (dquote ++ imageID ++ dquote) = (Some req, None)
    /\ http_Do (Tag_request dt req) (world m) = ((Some r, None), w)
    /\ (StatusCode r < 300)%Z /\ m' = mkMem (statuses m) w.
Proof.
  destruct (http_NewRequest "PUT" (Tag_url dt repo tag) (dquote ++ imageID ++ dquote))
    as [[req|] [e|]] eqn:Hreq.
  1, 3, 4: unfold DockerRegistryTagger_Tag, Tag_url in *; rewrite Hreq;
           cbv [is_err bind deref panic ret]; discriminate.
  rewrite (Tag_run _ _ _ _ req) by assumption.
  destruct (http_Do _ (world m)) as [[resp err] w] eqn:Hdo.
  destruct resp as [r|]; [|discriminate].
  destruct err as [e|]; [discriminate|].
  destruct (Z.leb_spec 300 (StatusCode r)); [discriminate|].
  intros [= <-]. exists req, r, w. auto.
Qed.

(** ** The registry-backed resolver *)

(** C7, where the code departs from it: [Resolve] never reads the status of
    the response.  Whatever the status, a body that decodes as a string is
    returned as the image id with a [nil] error. *)
Theorem Resolve_ignores_status (r : DockerRegistryTagResolver) (repo tag imageID : string)
    (resp : Response) (m : Mem W) (w : W) :
  http_Get (Resolve_url r repo tag) (world m) = ((Some resp, None), w) ->
  json_Decode_string (resp_Body resp) = (imageID, None) ->
  DockerRegistryTagResolver_Resolve r repo tag m =
  Returns (imageID, None) (mkMem (statuses m) w).
Proof.
  intros Hget Hdec.
  unfold DockerRegistryTagResolver_Resolve, Resolve_url, bind, extern in *.
  rewrite Hget. simpl. rewrite Hdec. reflexivity.
Qed.

(** The two failure modes [Resolve] does report. *)
Lemma Resolve_transport_error (r : DockerRegistryTagResolver) (repo tag e : string)
    (resp : option Response) (m : Mem W) (w : W) :
  http_Get (Resolve_url r repo tag) (world m) = ((resp, Some e), w) ->
  DockerRegistryTagResolver_Resolve r repo tag m =
  Returns (EmptyString, Some e) (mkMem (statuses m) w).
Proof.
  intros Hget.
  unfold DockerRegistryTagResolver_Resolve, Resolve_url, bind, extern in *.
  rewrite Hget. reflexivity.
Qed.

Lemma Resolve_malformed_body (r : DockerRegistryTagResolver) (repo tag x e : string)
    (resp : Response) (m : Mem W) (w : W) :
  http_Get (Resolve_url r repo tag) (world m) = ((Some resp, None), w) ->
  json_Decode_string (resp_Body resp) = (x, Some e) ->
  DockerRegistryTagResolver_Resolve r repo tag m =
  Returns (EmptyString, Some e) (mkMem (statuses m) w).
Proof.
  intros Hget Hdec.
  unfold DockerRegistryTagResolver_Resolve, Resolve_url, bind, extern in *.
  rewrite Hget. simpl. rewrite Hdec. reflexivity.
Qed.

End RegistryTagger.

(** ** The orchestrator *)

Section Orchestration.
Context {W : Type}.
Implicit Types (q : Quayd W) (m : Mem W) (calls : list Call).

Lemma q_statusesRepository_run q :
  q_statusesRepository q = Some (the_statusesRepository q).
Proof. destruct q as [[sr|] t r]; reflexivity. Qed.

Lemma q_tagger_run q : q_tagger q = (Some (the_tagger q), fill_tagger q).
Proof. destruct q as [sr [t|] r]; reflexivity. Qed.

Lemma q_tagResolver_run q :
  q_tagResolver q = (Some (the_tagResolver q), fill_tagResolver q).
Proof. destruct q as [sr t [r|]]; reflexivity. Qed.

Lemma the_tagger_fill_tagResolver q : the_tagger (fill_tagResolver q) = the_tagger q.
Proof. reflexivity. Qed.

Lemma fill_tagger_idem q : fill_tagger (fill_tagger q) = fill_tagger q.
Proof. reflexivity. Qed.

Lemma invoke_run {A} (c : Call) (p : proc (Mem W) A) calls m :
  invoke c p (calls, m) =
  match p m with
  | Returns a m' => Returns a ((calls ++ [c])%list, m')
  | Panics e m' => Panics e ((calls ++ [c])%list, m')
  end.
Proof. reflexivity. Qed.

(** [Handle] is one [Create] on the sink in use. *)
Lemma Handle_run q (repo commit url state : string) calls m :
  Handle q repo commit url state (calls, m) =
  match Create (the_statusesRepository q) (Handle_status repo commit url state) m with
  | Returns err m' =>
      Returns err ((calls ++ [CreateCall (Handle_status repo commit url state)])%list, m')
  | Panics p m' =>
      Panics p ((calls ++ [CreateCall (Handle_status repo commit url state)])%list, m')
  end.
Proof.
  unfold Handle. rewrite q_statusesRepository_run. reflexivity.
Qed.

(** [LoadImageTags], call by call. *)
Lemma LoadImageTags_run q (tag repo commit : string) calls m :
  LoadImageTags q tag repo commit (calls, m) =
  let q1 := fill_tagResolver q in
  let q2 := fill_tagger q1 in
  match Resolve (the_tagResolver q) repo tag m with
  | Panics p m1 => Panics p ((calls ++ [ResolveCall repo tag])%list, m1)
  | Returns (imageID, Some e) m1 =>
      Returns (Some e, q1) ((calls ++ [ResolveCall repo tag])%list, m1)
  | Returns (imageID, None) m1 =>
      match Tag (the_tagger q) repo imageID commit m1 with
      | Panics p m2 =>
          Panics p ((calls ++ [ResolveCall repo tag; TagCall repo imageID commit])%list, m2)
      | Returns (Some e) m2 =>
          Returns (Some e, q2)
            ((calls ++ [ResolveCall repo tag; TagCall repo imageID commit])%list, m2)
      | Returns None m2 =>
          match Tag (the_tagger q) repo imageID imageID m2 with
          | Panics p m3 =>
              Panics p ((calls ++ [ResolveCall repo tag; TagCall repo imageID commit;
                                   TagCall repo imageID imageID])%list, m3)
          | Returns err m3 =>
              Returns (err, q2)
                ((calls ++ [ResolveCall repo tag; TagCall repo imageID commit;
                            TagCall repo imageID imageID])%list, m3)
          end
      end
  end.
Proof.
  unfold LoadImageTags. rewrite q_tagResolver_run.
  unfold bind, call_Resolve. rewrite invoke_run.
  destruct (Resolve _ repo tag m) as [[imageID [e|]] m1|p m1]; try reflexivity.
  cbn [is_err]. rewrite q_tagger_run, the_tagger_fill_tagResolver.
  cbv beta iota. unfold call_Tag at 1. rewrite invoke_run.
  destruct (Tag _ repo imageID commit m1) as [[e|] m2|p m2];
    cbn [is_err]; rewrite <- ?app_assoc; try reflexivity.
  rewrite q_tagger_run. cbv beta iota. unfold call_Tag. rewrite invoke_run.
  destruct (Tag _ repo imageID imageID m2) as [err m3|p m3];
    rewrite <- ?app_assoc; reflexivity.
Qed.

End Orchestration.

Section Claims.
Context {W : Type}.
Implicit Types (q : Quayd W) (m : Mem W) (calls : list Call).

(** C10: [Handle] does not look at [state].  For every state string it hands
    exactly one [Status] to the sink in use (the configured one, or the
    default), with [State] the given string, [Context] the package-level
    value and [Description] the table entry, which is empty outside the three
    keys; what [Handle] returns is what the sink returns. *)
Theorem Handle_submits_one_status q (repo commit url state : string) calls m :
  Handle q repo commit url state (calls, m) =
    match Create (the_statusesRepository q) (Handle_status repo commit url state) m with
    | Returns err m' =>
        Returns err ((calls ++ [CreateCall (Handle_status repo commit url state)])%list, m')
    | Panics p m' =>
        Panics p ((calls ++ [CreateCall (Handle_status repo commit url state)])%list, m')
    end
  /\ Handle_status repo commit url state =
       mkStatus repo commit state "Docker Image" url
         (if String.eqb state "pending" then "The Docker image is building"
          else if String.eqb state "success" then "The Docker image was built"
          else if String.eqb state "failure" then "The Docker image failed to build"
          else EmptyString).
Proof.
  split; [apply Handle_run|].
  unfold Handle_status. rewrite Statuses_at_cases. reflexivity.
Qed.


(** C2: an event whose state is none of [pending], [success], [failure] is
    rejected as an unknown status: the pipeline makes no interface call, and
    leaves the process, the world and the receiver as they were. *)
Theorem HandleEvent_unknown_status q (ev : BuildEvent) (registryTag : string) calls m :
  ev_state ev <> "pending" -> ev_state ev <> "success" -> ev_state ev <> "failure" ->
  HandleEvent q ev registryTag (calls, m) = Returns (UnknownStatus, q) (calls, m).
Proof.
  intros H1 H2 H3. unfold HandleEvent, recognized.
  destruct (String.eqb_spec (ev_state ev) "pending"); [contradiction|].
  destruct (String.eqb_spec (ev_state ev) "success"); [contradiction|].
  destruct (String.eqb_spec (ev_state ev) "failure"); [contradiction|].
  reflexivity.
Qed.

End Claims.

Section Tagging.
Context {W : Type}.
Implicit Types (q : Quayd W) (m : Mem W) (calls : list Call).


(** C4: [LoadImageTags] stops at the first failure.  An error of the resolver
    is returned with no tag operation attempted; an error of the first tag
    write is returned with the second not attempted; and the result is [nil]
    only when the resolver and both tag writes gave no error, in which case
    exactly these three calls were made. *)
Theorem LoadImageTags_first_failure q (tag repo commit : string) calls m :
  (forall x e m1,
     Resolve (the_tagResolver q) repo tag m = Returns (x, Some e) m1 ->
     LoadImageTags q tag repo commit (calls, m) =
     Returns (Some e, fill_tagResolver q) ((calls ++ [ResolveCall repo tag])%list, m1))
  /\ (forall imageID e m1 m2,
     Resolve (the_tagResolver q) repo tag m = Returns (imageID, None) m1 ->
     Tag (the_tagger q) repo imageID commit m1 = Returns (Some e) m2 ->
     LoadImageTags q tag repo commit (calls, m) =
     Returns (Some e, fill_tagger (fill_tagResolver q))
       ((calls ++ [ResolveCall repo tag; TagCall repo imageID commit])%list, m2))
  /\ (forall q' s',
     LoadImageTags q tag repo commit (calls, m) = Returns (None, q') s' ->
     exists imageID m1 m2 m3,
       Resolve (the_tagResolver q) repo tag m = Returns (imageID, None) m1
       /\ Tag (the_tagger q) repo imageID commit m1 = Returns None m2
       /\ Tag (the_tagger q) repo imageID imageID m2 = Returns None m3
       /\ s' = ((calls ++ [ResolveCall repo tag; TagCall repo imageID commit;
                           TagCall repo imageID imageID])%list, m3)).
Proof.
  split; [|split].
  - intros x e m1 Hr. rewrite LoadImageTags_run. cbv zeta. rewrite Hr. reflexivity.
  - intros imageID e m1 m2 Hr Ht. rewrite LoadImageTags_run. cbv zeta.
    rewrite Hr, Ht. reflexivity.
  - intros q' s'. rewrite LoadImageTags_run. cbv zeta.
    destruct (Resolve _ repo tag m) as [[imageID [e|]] m1|p m1] eqn:Hr; try discriminate.
    destruct (Tag _ repo imageID commit m1) as [[e|] m2|p m2] eqn:Ht1; try discriminate.
    destruct (Tag _ repo imageID imageID m2) as [[e|] m3|p m3] eqn:Ht2; try discriminate.
    intros [= <- <-]. exists imageID, m1, m2, m3. auto.
Qed.

Lemma the_statusesRepository_total q :
  configured_total q -> forall status, total (Create (the_statusesRepository q) status).
Proof.
  intros (Hs & _ & _). unfold the_statusesRepository.
  destruct (Quayd_StatusesRepository q) as [r|]; simpl; [apply Hs; reflexivity|].
  intros status m. eexists _, _. reflexivity.
Qed.

Lemma the_tagger_total q :
  configured_total q -> forall repo imageID tag, total (Tag (the_tagger q) repo imageID tag).
Proof.
  intros (_ & Ht & _). unfold the_tagger.
  destruct (Quayd_Tagger q) as [t|]; simpl; [apply Ht; reflexivity|].
  intros repo imageID tag m. eexists _, _. reflexivity.
Qed.

Lemma the_tagResolver_total q :
  configured_total q -> forall repo tag, total (Resolve (the_tagResolver q) repo tag).
Proof.
  intros (_ & _ & Hr). unfold the_tagResolver.
  destruct (Quayd_TagResolver q) as [r|]; simpl; [apply Hr; reflexivity|].
  intros repo tag m. eexists _, _. reflexivity.
Qed.

(** When the implementations that are configured return from every state, so
    do [Handle] and [LoadImageTags]. *)
Lemma configured_total_returns q :
  configured_total q ->
  (forall repo commit url state, total (Handle q repo commit url state))
  /\ (forall tag repo commit, total (LoadImageTags q tag repo commit)).
Proof.
  intros Hq. split.
  - intros repo commit url state [calls m]. rewrite Handle_run.
    destruct (the_statusesRepository_total q Hq (Handle_status repo commit url state) m)
      as (e & m' & ->).
    eexists _, _. reflexivity.
  - intros tag repo commit [calls m]. rewrite LoadImageTags_run. cbv zeta.
    destruct (the_tagResolver_total q Hq repo tag m) as ([imageID e] & m1 & ->).
    destruct e as [e|]; [eexists _, _; reflexivity|].
    destruct (the_tagger_total q Hq repo imageID commit m1) as (e1 & m2 & ->).
    destruct e1 as [e1|]; [eexists _, _; reflexivity|].
    destruct (the_tagger_total q Hq repo imageID imageID m2) as (e2 & m3 & ->).
    eexists _, _. reflexivity.
Qed.

(** C8: for every [Quayd], whatever combination of its fields is nil.  Each
    accessor hands out the configured implementation or, on its own, the
    default, never nil.  So [Handle] is the [Create] of that implementation
    and nothing else, and a panic of [LoadImageTags] is a panic of one of the
    three method calls on the resolver and tagger in use: neither
    dereferences a nil field.  With a nil sink [Handle] returns nil whatever
    the other fields are; with a nil tagger and resolver [LoadImageTags]
    returns nil whatever the sink is; with all three nil both return nil. *)
Theorem nil_fields_fall_back q (tag repo commit url state : string) calls m :
  (q_statusesRepository q
     = Some (default DefaultStatusesRepository (Quayd_StatusesRepository q))
   /\ fst (q_tagger q) = Some (default DefaultTagger (Quayd_Tagger q))
   /\ fst (q_tagResolver q) = Some (default DefaultTagResolver (Quayd_TagResolver q)))
  /\ Handle q repo commit url state (calls, m) =
     match Create (default DefaultStatusesRepository (Quayd_StatusesRepository q))
                  (Handle_status repo commit url state) m with
     | Returns err m' =>
         Returns err ((calls ++ [CreateCall (Handle_status repo commit url state)])%list, m')
     | Panics p m' =>
         Panics p ((calls ++ [CreateCall (Handle_status repo commit url state)])%list, m')
     end
  /\ (forall p s',
        LoadImageTags q tag repo commit (calls, m) = Panics p s' ->
        let resolver := default DefaultTagResolver (Quayd_TagResolver q) in
        let tagger := default DefaultTagger (Quayd_Tagger q) in
        (exists m1, Resolve resolver repo tag m = Panics p m1)
        \/ (exists imageID m1 m2,
              Resolve resolver repo tag m = Returns (imageID, None) m1
              /\ Tag tagger repo imageID commit m1 = Panics p m2)
        \/ (exists imageID m1 m2 m3,
              Resolve resolver repo tag m = Returns (imageID, None) m1
              /\ Tag tagger repo imageID commit m1 = Returns None m2
              /\ Tag tagger repo imageID imageID m2 = Panics p m3))
  /\ (forall t r,
        Handle (mkQuayd None t r) repo commit url state (calls, m) =
        Returns None
          ((calls ++ [CreateCall (Handle_status repo commit url state)])%list,
           mkMem (statuses m ++ [Handle_status repo commit url state]) (world m)))
  /\ (forall sr,
        LoadImageTags (mkQuayd sr None None) tag repo commit (calls, m) =
        Returns (None, mkQuayd sr (Some DefaultTagger) (Some DefaultTagResolver))
          ((calls ++ [ResolveCall repo tag; TagCall repo EmptyString commit;
                      TagCall repo EmptyString EmptyString])%list, m))
  /\ Handle Default repo commit url state (calls, m) =
     Returns None
       ((calls ++ [CreateCall (Handle_status repo commit url state)])%list,
        mkMem (statuses m ++ [Handle_status repo commit url state]) (world m))
  /\ LoadImageTags Default tag repo commit (calls, m) =
     Returns (None, mkQuayd None (Some DefaultTagger) (Some DefaultTagResolver))
       ((calls ++ [ResolveCall repo tag; TagCall repo EmptyString commit;
                   TagCall repo EmptyString EmptyString])%list, m).
Proof.
  split; [|split; [|split; [|split; [|split; [|split]]]]].
  - rewrite q_statusesRepository_run, q_tagger_run, q_tagResolver_run. repeat split.
  - apply Handle_run.
  - intros p s'. rewrite LoadImageTags_run. cbv zeta.
    fold (the_tagResolver q). fold (the_tagger q).
    destruct (Resolve _ repo tag m) as [[imageID [e|]] m1|p1 m1] eqn:Hr; try discriminate.
    + destruct (Tag _ repo imageID commit m1) as [[e|] m2|p2 m2] eqn:Ht1; try discriminate.
      * destruct (Tag _ repo imageID imageID m2) as [e2 m3|p3 m3] eqn:Ht2; try discriminate.
        intros [= <- _]. right. right. exists imageID, m1, m2, m3. auto.
      * intros [= <- _]. right. left. exists imageID, m1, m2. auto.
    + intros [= <- _]. left. exists m1. reflexivity.
  - intros t r. rewrite Handle_run. reflexivity.
  - intros sr. destruct m as [recs w]. rewrite LoadImageTags_run. reflexivity.
  - rewrite Handle_run. reflexivity.
  - destruct m as [recs w]. rewrite LoadImageTags_run. reflexivity.
Qed.

End Tagging.

(** ** Concrete runs *)



Lemma HandleEvent_unknown_status_witness :
  HandleEvent (Demo.production Demo.happy) (Demo.event "foo") "latest" ([], Demo.mem0) =
  Returns (UnknownStatus, Demo.production Demo.happy) ([], Demo.mem0).
Proof.
  apply (HandleEvent_unknown_status (Demo.production Demo.happy) (Demo.event "foo")
           "latest" [] Demo.mem0); simpl; discriminate.
Defined.


Example pending_status_fields :
  Demo.status_of (Demo.event "pending") "The Docker image is building" =
  {| Repo := "ejholmes/docker-statsd"; Ref := "long-f1fb3b0"; State := "pending";
     Ctx := "Docker Image";
     TargetURL := "https://quay.io/repository/ejholmes/docker-statsd/build/1";
     Description := "The Docker image is building" |}.
Proof. reflexivity. Qed.

Lemma LoadImageTags_first_failure_witness :
  LoadImageTags (Demo.production Demo.get_refused) "latest" "ejholmes/docker-statsd"
    "long-f1fb3b0" ([], Demo.mem0) =
  Returns (Some "dial tcp: connection refused", Demo.production Demo.get_refused)
    ([ResolveCall "ejholmes/docker-statsd" "latest"], mkMem [] [resolve_call])
  /\ LoadImageTags (Demo.production Demo.put_500) "latest" "ejholmes/docker-statsd"
       "long-f1fb3b0" ([], Demo.mem0) =
     Returns (Some "Unsuccessful Request: 500 Internal Server Error",
              Demo.production Demo.put_500)
       ([ResolveCall "ejholmes/docker-statsd" "latest";
         TagCall "ejholmes/docker-statsd" "1234" "long-f1fb3b0"],
        mkMem [] [resolve_call; tag_call "1234" "long-f1fb3b0"]).
Proof.
  split.
  - exact (proj1 (LoadImageTags_first_failure (Demo.production Demo.get_refused)
                    "latest" "ejholmes/docker-statsd" "long-f1fb3b0" [] Demo.mem0)
             EmptyString "dial tcp: connection refused" (mkMem [] [resolve_call]) eq_refl).
  - exact (proj1 (proj2 (LoadImageTags_first_failure (Demo.production Demo.put_500)
                    "latest" "ejholmes/docker-statsd" "long-f1fb3b0" [] Demo.mem0))
             "1234" "Unsuccessful Request: 500 Internal Server Error"
             (mkMem [] [resolve_call])
             (mkMem [] [resolve_call; tag_call "1234" "long-f1fb3b0"]) eq_refl eq_refl).
Defined.

Lemma Tag_transport_error_panics_witness :
  DockerRegistryTagger_Tag (ext := Demo.put_refused) Demo.registry_tagger
    "ejholmes/docker-statsd" "1234" "long-f1fb3b0" Demo.mem0 =
  Panics NilDereference (mkMem [] [tag_call "1234" "long-f1fb3b0"]).
Proof.
  apply (Tag_transport_error_panics (ext := Demo.put_refused) Demo.registry_tagger
           "ejholmes/docker-statsd" "1234" "long-f1fb3b0" "dial tcp: connection refused"
           (mkRequest "PUT"
              "https://quay.io/v1/repositories/ejholmes/docker-statsd/tags/long-f1fb3b0"
              (dquote ++ "1234" ++ dquote) [] None));
    reflexivity.
Defined.

Lemma Resolve_ignores_status_witness :
  DockerRegistryTagResolver_Resolve (ext := Demo.get_500) Demo.registry_resolver
    "ejholmes/docker-statsd" "latest" Demo.mem0 =
  Returns ("Internal Server Error", None) (mkMem [] [resolve_call]).
Proof.
  apply (Resolve_ignores_status (ext := Demo.get_500) Demo.registry_resolver
           "ejholmes/docker-statsd" "latest" "Internal Server Error"
           (mkResponse 500 "500 Internal Server Error"
              (dquote ++ "Internal Server Error" ++ dquote)));
    reflexivity.
Defined.

(** Only the sink is configured, with the GitHub implementation: the tags go
    to the default resolver and tagger, and the run returns nil. *)
Lemma nil_fields_fall_back_witness :
  LoadImageTags (Demo.sink_only Demo.happy) "latest" "ejholmes/docker-statsd" "long-f1fb3b0"
    ([], Demo.mem0) =
  Returns (None,
           mkQuayd (Quayd_StatusesRepository (Demo.sink_only Demo.happy))
                   (Some DefaultTagger) (Some DefaultTagResolver))
    ([ResolveCall "ejholmes/docker-statsd" "latest";
      TagCall "ejholmes/docker-statsd" EmptyString "long-f1fb3b0";
      TagCall "ejholmes/docker-statsd" EmptyString EmptyString], Demo.mem0).
Proof.
  exact (proj1 (proj2 (proj2 (proj2 (proj2
    (nil_fields_fall_back (Demo.sink_only Demo.happy) "latest" "ejholmes/docker-statsd"
       "long-f1fb3b0" "https://quay.io/repository/ejholmes/docker-statsd/build/1"
       "success" [] Demo.mem0)))))
    (Quayd_StatusesRepository (Demo.sink_only Demo.happy))).
Defined.

Lemma tagger_only_returns :
  (forall repo commit url state,
     total (Handle (Demo.tagger_only Demo.happy) repo commit url state))
  /\ (forall tag repo commit,
        total (LoadImageTags (Demo.tagger_only Demo.happy) tag repo commit)).
Proof.
  apply configured_total_returns.
  repeat split; simpl; try discriminate.
  intros t [= <-] repo imageID tag m. eexists _, _. cbv. reflexivity.
Qed.

(** With only the tagger configured, the status goes to the default sink
    and the default resolver gives the empty image id. *)
Example tagger_only_run :
  HandleEvent (Demo.tagger_only Demo.happy) (Demo.event "success") "latest" ([], Demo.mem0) =
  Returns (Finished None,
           mkQuayd None (Some (as_iface Demo.registry_tagger)) (Some DefaultTagResolver))
    ([CreateCall success_status;
      ResolveCall "ejholmes/docker-statsd" "latest";
      TagCall "ejholmes/docker-statsd" EmptyString "long-f1fb3b0";
      TagCall "ejholmes/docker-statsd" EmptyString EmptyString],
     mkMem [success_status] [tag_call EmptyString "long-f1fb3b0"; tag_call EmptyString EmptyString]).
Proof. reflexivity. Qed.

(** What the unchecked status leads to: the text of a 500 answer is used as
    the image id of both tag writes. *)
Example LoadImageTags_tags_error_text :
  calls_of (LoadImageTags (Demo.production Demo.get_500) "latest" "ejholmes/docker-statsd"
              "long-f1fb3b0" ([], Demo.mem0)) =
  [ResolveCall "ejholmes/docker-statsd" "latest";
   TagCall "ejholmes/docker-statsd" "Internal Server Error" "long-f1fb3b0";
   TagCall "ejholmes/docker-statsd" "Internal Server Error" "Internal Server Error"].
Proof. reflexivity. Qed.

(** The sink's failure ends the pipeline before the resolver is reached. *)
Example status_failure_aborts :
  HandleEvent (W := Demo.World)
    (mkQuayd (Some {| Create := fun _ => ret (Some "401 Bad credentials") |}) None None)
    (Demo.event "success") "latest" ([], Demo.mem0) =
  Returns (Finished (Some "401 Bad credentials"),
           mkQuayd (Some {| Create := fun _ => ret (Some "401 Bad credentials") |}) None None)
    ([CreateCall success_status], Demo.mem0).
Proof. reflexivity. Qed.

(** * Further properties *)

(** ** [strings.Split], as used by [Create] and [New] *)

Lemma Split_nonempty (s : string) (sep : ascii) : strings_Split s sep <> [].
Proof. rewrite Split_unfold. discriminate. Qed.

Lemma Join_cons (x y : string) (l : list string) (sep : ascii) :
  strings_Join (x :: y :: l) sep = x ++ String sep (strings_Join (y :: l) sep).
Proof. reflexivity. Qed.

(** X1: splitting loses nothing.  Joining the segments of [s] with the
    separator gives [s] back, no segment holds the separator, and there is
    one segment more than there are separators (so never none). *)
Theorem Split_Join (s : string) (sep : ascii) :
  strings_Join (strings_Split s sep) sep = s
  /\ Forall (fun x => no_sep sep x = true) (strings_Split s sep)
  /\ length (strings_Split s sep) = S (count_sep sep s).
Proof.
  induction s as [|c s (IHj & IHf & IHl)]; simpl.
  - repeat split. repeat constructor.
  - destruct (Ascii.eqb_spec c sep) as [->|Hne].
    + pose proof (Split_nonempty s sep) as Hn.
      destruct (strings_Split s sep) as [|x xs] eqn:E; [contradiction|].
      rewrite Join_cons, IHj. repeat split.
      * constructor; [reflexivity|assumption].
      * simpl in *. lia.
    + pose proof (Split_nonempty s sep) as Hn.
      destruct (strings_Split s sep) as [|x xs] eqn:E; [contradiction|].
      repeat split.
      * destruct xs as [|y ys]; simpl in *; [congruence|].
        change (String c (x ++ String sep (strings_Join (y :: ys) sep)) = String c s).
        f_equal. exact IHj.
      * inversion IHf as [|? ? Hx Hxs]; subst. constructor; [|assumption].
        simpl. destruct (Ascii.eqb_spec c sep); [contradiction|]. exact Hx.
      * simpl in *. lia.
Qed.

(** ** The fake sink *)

Lemma fake_Create_all_run {W} (l : list Status) (m : Mem W) :
  Create_all DefaultStatusesRepository l m =
  Returns (map (fun _ => None) l) (mkMem (statuses m ++ l) (world m)).
Proof.
  revert m. induction l as [|status l IH]; intros [recs w]; simpl.
  - unfold ret. rewrite app_nil_r. reflexivity.
  - unfold bind. simpl. rewrite IH. simpl. unfold ret.
    rewrite <- app_assoc. reflexivity.
Qed.

(** X2: the fake sink keeps every status, in the order of the calls, after
    the ones it already held; each [Create] returns nil and the world is not
    touched.  After [Reset] the records are exactly the statuses created
    since, whatever was recorded before. *)
Theorem fake_sink_records {W} (l : list Status) (m : Mem W) :
  Create_all DefaultStatusesRepository l m =
    Returns (map (fun _ => None) l) (mkMem (statuses m ++ l) (world m))
  /\ (do _ <- statusesRepository_Reset; Create_all DefaultStatusesRepository l) m =
    Returns (map (fun _ => None) l) (mkMem l (world m)).
Proof.
  split; [apply fake_Create_all_run|].
  unfold bind, statusesRepository_Reset. rewrite fake_Create_all_run. reflexivity.
Qed.

(** ** The GitHub-backed sink, witnesses *)

Lemma GitHub_Create_owner_name_witness :
  GitHubStatusesRepository_Create demo_github (demo_status "ejholmes/docker-statsd") Demo.mem0 =
  one_CreateStatus demo_github "ejholmes" "docker-statsd"
    (demo_status "ejholmes/docker-statsd") Demo.mem0.
Proof.
  apply (GitHub_Create_owner_name demo_github (demo_status "ejholmes/docker-statsd")
           "ejholmes" "docker-statsd" Demo.mem0); reflexivity.
Defined.

Lemma GitHub_Create_no_slash_witness :
  GitHubStatusesRepository_Create demo_github (demo_status "docker-statsd") Demo.mem0 =
  Panics (IndexOutOfRange 1 1) Demo.mem0.
Proof.
  apply (GitHub_Create_no_slash demo_github (demo_status "docker-statsd") Demo.mem0).
  reflexivity.
Defined.

(** ** The registry-backed tagger, further *)

Section RegistryFurther.
Context {W : Type} {ext : Externals W}.

(** X6: [Tag] returns nil exactly when the request could be built, the
    transport gave a response and no error, and the status is below 300; the
    process state then differs only by that one write to the world. *)
Theorem Tag_nil_iff (dt : DockerRegistryTagger) (repo imageID tag : string)
    (m m' : Mem W) :
  DockerRegistryTagger_Tag dt repo imageID tag m = Returns None m' <->
  exists req r w,
    http_NewRequest "PUT" (Tag_url dt repo tag) (dquote ++ imageID ++ dquote) = (Some req, None)
    /\ http_Do (Tag_request dt req) (world m) = ((Some r, None), w)
    /\ (StatusCode r < 300)%Z /\ m' = mkMem (statuses m) w.
Proof.
  split; [apply Tag_nil_only_below_300|].
  intros (req & r & w & Hreq & Hdo & Hcode & ->).
  rewrite (Tag_run _ _ _ _ req) by assumption. rewrite Hdo.
  destruct (Z.leb_spec 300 (StatusCode r)); [lia|reflexivity].
Qed.

(** X7: [Tag] makes at most one network call, and touches nothing else.
    When [http.NewRequest] fails (or gives no request) the state is left as it
    was; otherwise the state ends as after exactly one [Do] of the request,
    whether [Tag] then returns nil, returns an error or panics. *)
Theorem Tag_network_effect (dt : DockerRegistryTagger) (repo imageID tag : string)
    (m : Mem W) :
  final (DockerRegistryTagger_Tag dt repo imageID tag m) =
  match http_NewRequest "PUT" (Tag_url dt repo tag) (dquote ++ imageID ++ dquote) with
  | (Some req, None) => mkMem (statuses m) (snd (http_Do (Tag_request dt req) (world m)))
  | _ => m
  end.
Proof.
  destruct (http_NewRequest "PUT" (Tag_url dt repo tag) (dquote ++ imageID ++ dquote))
    as [[req|] [e|]] eqn:Hreq.
  1, 3, 4: unfold DockerRegistryTagger_Tag, Tag_url in *; rewrite Hreq; reflexivity.
  rewrite (Tag_run _ _ _ _ req) by assumption.
  destruct (http_Do _ (world m)) as [[[r|] [e|]] w]; simpl; try reflexivity.
  destruct (300 <=? StatusCode r)%Z; reflexivity.
Qed.

(** X8: whenever [Resolve] reports an error, the image id it returns is the
    empty string, also when the decoder had produced a value. *)
Theorem Resolve_error_empty_id (r : DockerRegistryTagResolver) (repo tag imageID : string)
    (err : error) (m m' : Mem W) :
  DockerRegistryTagResolver_Resolve r repo tag m = Returns (imageID, err) m' ->
  is_err err = true ->
  imageID = EmptyString.
Proof.
  unfold DockerRegistryTagResolver_Resolve, bind, extern.
  destruct (http_Get _ (world m)) as [[resp [e|]] w]; simpl.
  - intros [= <- _ _]. reflexivity.
  - destruct resp as [resp|]; simpl; [|discriminate].
    destruct (json_Decode_string (resp_Body resp)) as [x [e|]]; simpl.
    + intros [= <- _ _]. reflexivity.
    + intros [= _ <- _]. discriminate.
Qed.

(** X9: [Resolve] makes exactly one network call, the read of the tag's
    address, and touches nothing else, whatever it then returns. *)
Theorem Resolve_network_effect (r : DockerRegistryTagResolver) (repo tag : string)
    (m : Mem W) :
  final (DockerRegistryTagResolver_Resolve r repo tag m) =
  mkMem (statuses m) (snd (http_Get (Resolve_url r repo tag) (world m))).
Proof.
  unfold DockerRegistryTagResolver_Resolve, Resolve_url, bind, extern.
  destruct (http_Get _ (world m)) as [[resp [e|]] w]; simpl; [reflexivity|].
  destruct resp as [resp|]; simpl; [|reflexivity].
  destruct (json_Decode_string (resp_Body resp)) as [x [e|]]; reflexivity.
Qed.

End RegistryFurther.

Lemma Tag_status_text_witness :
  DockerRegistryTagger_Tag (ext := Demo.put_500) Demo.registry_tagger
    "ejholmes/docker-statsd" "1234" "long-f1fb3b0" Demo.mem0 =
  Returns (Some "Unsuccessful Request: 500 Internal Server Error")
    (mkMem [] [tag_call "1234" "long-f1fb3b0"]).
Proof.
  apply (Tag_status_text (ext := Demo.put_500) Demo.registry_tagger
           "ejholmes/docker-statsd" "1234" "long-f1fb3b0"
           (mkRequest "PUT"
              "https://quay.io/v1/repositories/ejholmes/docker-statsd/tags/long-f1fb3b0"
              (dquote ++ "1234" ++ dquote) [] None)
           (mkResponse 500 "500 Internal Server Error" EmptyString) None);
    [reflexivity | reflexivity | simpl; lia].
Defined.

Lemma Tag_nil_iff_witness :
  DockerRegistryTagger_Tag (ext := Demo.happy) Demo.registry_tagger
    "ejholmes/docker-statsd" "1234" "long-f1fb3b0" Demo.mem0 =
  Returns None (mkMem [] [tag_call "1234" "long-f1fb3b0"]).
Proof.
  apply (proj2 (Tag_nil_iff (ext := Demo.happy) Demo.registry_tagger
                  "ejholmes/docker-statsd" "1234" "long-f1fb3b0" Demo.mem0
                  (mkMem [] [tag_call "1234" "long-f1fb3b0"]))).
  exists (mkRequest "PUT"
            "https://quay.io/v1/repositories/ejholmes/docker-statsd/tags/long-f1fb3b0"
            (dquote ++ "1234" ++ dquote) [] None),
         (mkResponse 200 "200 OK" EmptyString),
         [tag_call "1234" "long-f1fb3b0"].
  repeat split; simpl; lia.
Defined.

Lemma Resolve_error_empty_id_witness :
  DockerRegistryTagResolver_Resolve (ext := Demo.get_refused) Demo.registry_resolver
    "ejholmes/docker-statsd" "latest" Demo.mem0 =
  Returns (EmptyString, Some "dial tcp: connection refused") (mkMem [] [resolve_call])
  /\ EmptyString = EmptyString.
Proof.
  split; [reflexivity|].
  apply (Resolve_error_empty_id (ext := Demo.get_refused) Demo.registry_resolver
           "ejholmes/docker-statsd" "latest" EmptyString
           (Some "dial tcp: connection refused") Demo.mem0 (mkMem [] [resolve_call]));
    reflexivity.
Defined.

(** ** [LoadImageTags] and [Handle], further *)

Section OrchestratorFurther.
Context {W : Type}.
Implicit Types (q : Quayd W) (m : Mem W) (calls : list Call).

(** X10: the interface calls of [LoadImageTags], for every outcome of every
    implementation, panics included.  The resolver is called first and once;
    the sink is never called; the tagger is called only after the resolver
    returned without error, at most twice, both times with the repository and
    the image id the resolver gave, the second time only after the first
    write returned nil. *)
Theorem LoadImageTags_calls q (tag repo commit : string) calls m :
  calls_of (LoadImageTags q tag repo commit (calls, m)) =
  (calls ++ ResolveCall repo tag ::
     match Resolve (the_tagResolver q) repo tag m with
     | Returns (imageID, None) m1 =>
         tag_calls repo imageID commit (Tag (the_tagger q) repo imageID commit m1)
     | _ => []
     end)%list.
Proof.
  rewrite LoadImageTags_run. cbv zeta. unfold tag_calls.
  destruct (Resolve _ repo tag m) as [[imageID [e|]] m1|p m1]; try reflexivity.
  destruct (Tag _ repo imageID commit m1) as [[e|] m2|p m2]; try reflexivity.
  destruct (Tag _ repo imageID imageID m2); reflexivity.
Qed.

(** X11: what [LoadImageTags] does to its receiver.  A configured field is
    never replaced; the resolver field is always filled, the tagger field is
    filled unless the resolver failed; and the receiver handed back uses the
    same three implementations as before, so a later call behaves as the
    first. *)
Theorem LoadImageTags_receiver q (tag repo commit : string) calls m
    (err : error) (q' : Quayd W) (s' : traced W) :
  LoadImageTags q tag repo commit (calls, m) = Returns (err, q') s' ->
  Quayd_StatusesRepository q' = Quayd_StatusesRepository q
  /\ Quayd_TagResolver q' = Some (the_tagResolver q)
  /\ (Quayd_Tagger q' = Some (the_tagger q)
      \/ Quayd_Tagger q' = Quayd_Tagger q /\ is_err err = true)
  /\ the_statusesRepository q' = the_statusesRepository q
  /\ the_tagger q' = the_tagger q
  /\ the_tagResolver q' = the_tagResolver q.
Proof.
  rewrite LoadImageTags_run. cbv zeta.
  destruct (Resolve _ repo tag m) as [[imageID [e|]] m1|p m1]; try discriminate.
  - intros [= <- <- _]. repeat split. right. split; reflexivity.
  - destruct (Tag _ repo imageID commit m1) as [[e|] m2|p m2]; try discriminate.
    + intros [= <- <- _]. repeat split. left. reflexivity.
    + destruct (Tag _ repo imageID imageID m2) as [e2 m3|p m3]; try discriminate.
      intros [= <- <- _]. repeat split. left. reflexivity.
Qed.

(** X12: a panic of the first tag write is a panic of [LoadImageTags]: it is
    not turned into an error, the second write is not attempted, and the
    state is the one the panic left. *)
Theorem LoadImageTags_tag_panic q (tag repo commit imageID : string) calls m m1 m2
    (p : runtime_error) :
  Resolve (the_tagResolver q) repo tag m = Returns (imageID, None) m1 ->
  Tag (the_tagger q) repo imageID commit m1 = Panics p m2 ->
  LoadImageTags q tag repo commit (calls, m) =
  Panics p ((calls ++ [ResolveCall repo tag; TagCall repo imageID commit])%list, m2).
Proof.
  intros Hr Ht. rewrite LoadImageTags_run. cbv zeta. rewrite Hr, Ht. reflexivity.
Qed.

(** X13: with no resolver configured, the default one answers every tag with
    the empty image id and no error, so the tagger in use is asked to write
    the commit tag, and then the empty tag, for the empty image id. *)
Theorem LoadImageTags_nil_resolver q (tag repo commit : string) calls m :
  Quayd_TagResolver q = None ->
  calls_of (LoadImageTags q tag repo commit (calls, m)) =
  (calls ++ ResolveCall repo tag ::
     tag_calls repo EmptyString commit (Tag (the_tagger q) repo EmptyString commit m))%list.
Proof.
  intros Hn. rewrite LoadImageTags_run. cbv zeta. unfold tag_calls.
  unfold the_tagResolver. rewrite Hn. simpl. unfold tagResolver_Resolve, ret.
  destruct (Tag _ repo EmptyString commit m) as [[e|] m2|p m2]; try reflexivity.
  destruct (Tag _ repo EmptyString EmptyString m2); reflexivity.
Qed.

End OrchestratorFurther.

Lemma New_inv {W} {ext : Externals W} {S} (token registryAuth : string) (s s' : S)
    (q : Quayd W) :
  New token registryAuth s = Returns q s' ->
  no_sep ":" registryAuth = false
  /\ s' = s
  /\ q = mkQuayd
           (Some (as_iface {| CreateStatus := github_CreateStatus token |}))
           (Some (as_iface {| dt_registry := "quay.io";
                              dt_username := upto ":" registryAuth;
                              dt_password := upto ":" (past ":" registryAuth) |}))
           (Some (as_iface {| tr_registry := "quay.io" |})).
Proof.
  unfold New, bind, index.
  rewrite Split_first. unfold ret at 1.
  destruct (no_sep ":" registryAuth) eqn:Hs.
  - rewrite Split_no_sep by assumption. discriminate.
  - rewrite Split_second by assumption. intros [= <- <-]. auto.
Qed.

(** X14: what GitHub receives.  For a [Quayd] built by [New] and a repository
    string with a '/', [Handle] is one [CreateStatus] of the client holding
    the token, for the owner and name split off the repository and the commit
    as ref, with the state and url as given, the context [Docker Image] and
    the table's description; its error is what [Handle] returns. *)
Theorem Handle_New_CreateStatus {W} {ext : Externals W} {S}
    (token registryAuth repo commit url state : string) (s s' : S)
    (q : Quayd W) (calls : list Call) (m : Mem W) :
  New token registryAuth s = Returns q s' ->
  no_sep "/" repo = false ->
  Handle q repo commit url state (calls, m) =
  let '((_, _, err), w) :=
    github_CreateStatus token (upto "/" repo) (upto "/" (past "/" repo)) commit
      (mkRepoStatus state url "Docker Image" (Statuses_at state)) (world m) in
  Returns err
    ((calls ++ [CreateCall (mkStatus repo commit state "Docker Image" url
                              (Statuses_at state))])%list,
     mkMem (statuses m) w).
Proof.
  intros Hnew Hrepo. apply New_inv in Hnew as (_ & _ & ->).
  rewrite Handle_run. unfold the_statusesRepository. simpl.
  rewrite GitHub_Create_run. cbn [Repo Handle_status]. rewrite Hrepo.
  unfold one_CreateStatus, RepoStatus_of. simpl.
  destruct (github_CreateStatus _ _ _ _ _ _) as [[[? ?] err] w]. reflexivity.
Qed.

(** ** Concrete runs, further *)

Lemma LoadImageTags_receiver_witness :
  LoadImageTags (W := Demo.World) Default "latest" "ejholmes/docker-statsd" "long-f1fb3b0"
    ([], Demo.mem0) =
  Returns (None, mkQuayd None (Some DefaultTagger) (Some DefaultTagResolver))
    ([ResolveCall "ejholmes/docker-statsd" "latest";
      TagCall "ejholmes/docker-statsd" EmptyString "long-f1fb3b0";
      TagCall "ejholmes/docker-statsd" EmptyString EmptyString], Demo.mem0)
  /\ the_tagger (W := Demo.World) (mkQuayd None (Some DefaultTagger) (Some DefaultTagResolver))
     = the_tagger Default.
Proof.
  split; [reflexivity|].
  exact (proj1 (proj2 (proj2 (proj2 (proj2
    (LoadImageTags_receiver (W := Demo.World) Default "latest" "ejholmes/docker-statsd"
       "long-f1fb3b0" [] Demo.mem0 None
       (mkQuayd None (Some DefaultTagger) (Some DefaultTagResolver))
       ([ResolveCall "ejholmes/docker-statsd" "latest";
         TagCall "ejholmes/docker-statsd" EmptyString "long-f1fb3b0";
         TagCall "ejholmes/docker-statsd" EmptyString EmptyString], Demo.mem0)
       eq_refl)))))).
Defined.

Lemma LoadImageTags_tag_panic_witness :
  LoadImageTags (Demo.production Demo.put_refused) "latest" "ejholmes/docker-statsd"
    "long-f1fb3b0" ([], Demo.mem0) =
  Panics NilDereference
    ([ResolveCall "ejholmes/docker-statsd" "latest";
      TagCall "ejholmes/docker-statsd" "1234" "long-f1fb3b0"],
     mkMem [] [resolve_call; tag_call "1234" "long-f1fb3b0"]).
Proof.
  apply (LoadImageTags_tag_panic (Demo.production Demo.put_refused) "latest"
           "ejholmes/docker-statsd" "long-f1fb3b0" "1234" [] Demo.mem0
           (mkMem [] [resolve_call])
           (mkMem [] [resolve_call; tag_call "1234" "long-f1fb3b0"]) NilDereference);
    reflexivity.
Defined.

Lemma LoadImageTags_nil_resolver_witness :
  calls_of (LoadImageTags (Demo.tagger_only Demo.happy) "latest" "ejholmes/docker-statsd"
              "long-f1fb3b0" ([], Demo.mem0)) =
  [ResolveCall "ejholmes/docker-statsd" "latest";
   TagCall "ejholmes/docker-statsd" EmptyString "long-f1fb3b0";
   TagCall "ejholmes/docker-statsd" EmptyString EmptyString].
Proof.
  exact (LoadImageTags_nil_resolver (Demo.tagger_only Demo.happy) "latest"
           "ejholmes/docker-statsd" "long-f1fb3b0" [] Demo.mem0 eq_refl).
Defined.

Lemma Handle_New_CreateStatus_witness :
  Handle (Demo.production Demo.happy) "ejholmes/docker-statsd" "long-f1fb3b0"
    "https://quay.io/repository/ejholmes/docker-statsd/build/1" "failure" ([], Demo.mem0) =
  Returns None
    ([CreateCall (Demo.status_of (Demo.event "failure") "The Docker image failed to build")],
     mkMem [] [github_call (Demo.event "failure") "The Docker image failed to build"]).
Proof.
  exact (Handle_New_CreateStatus (ext := Demo.happy) "token" "user:pass"
           "ejholmes/docker-statsd" "long-f1fb3b0"
           "https://quay.io/repository/ejholmes/docker-statsd/build/1" "failure"
           tt tt (Demo.production Demo.happy) [] Demo.mem0 eq_refl eq_refl).
Defined.
